(** * SQLCoder text-to-SQL backend: translator, executor, schema introspector

    A shallow embedding of [backend/main.py]:
    - [SQLCoderService.generate_sql]  (the keyword classifier),
    - [execute_query_endpoint]        (generate, run, classify, answer),
    - [get_schema]                    (live schema introspection).

    Python [str] values are modelled by [string] over the ASCII range; the
    case conversions [lower]/[upper] and the whitespace class of [strip]
    are the ASCII restrictions of the Python ones.  Wall-clock timing
    ([execution_time]) is a float read from the clock and is left out of
    the response record. *)

From Stdlib Require Import String Ascii List ZArith Bool Arith Lia DecimalString FinFun.
Import ListNotations.
Local Open Scope string_scope.

(* ===================================================================== *)
(** ** Python string primitives *)
(* ===================================================================== *)

Module PyStr.

Definition lower_char (c : ascii) : ascii :=
  let n := nat_of_ascii c in
  if ((65 <=? n) && (n <=? 90))%nat then ascii_of_nat (n + 32) else c.

Definition upper_char (c : ascii) : ascii :=
  let n := nat_of_ascii c in
  if ((97 <=? n) && (n <=? 122))%nat then ascii_of_nat (n - 32) else c.

Fixpoint map_str (f : ascii -> ascii) (s : string) : string :=
  match s with
  | EmptyString => EmptyString
  | String c t => String (f c) (map_str f t)
  end.

(** [s.lower()] and [s.upper()]. *)
Definition lower : string -> string := map_str lower_char.
Definition upper : string -> string := map_str upper_char.

(** [c.isspace()]: TAB, LF, VT, FF, CR, FS, GS, RS, US and SPACE. *)
Definition is_space (c : ascii) : bool :=
  let n := nat_of_ascii c in
  (((9 <=? n) && (n <=? 13)) || ((28 <=? n) && (n <=? 32)))%nat.

Fixpoint lstrip (s : string) : string :=
  match s with
  | EmptyString => EmptyString
  | String c t => if is_space c then lstrip t else s
  end.

Fixpoint rstrip (s : string) : string :=
  match s with
  | EmptyString => EmptyString
  | String c t =>
      match rstrip t with
      | EmptyString => if is_space c then EmptyString else String c EmptyString
      | t' => String c t'
      end
  end.

(** [s.strip()]. *)
Definition strip (s : string) : string := rstrip (lstrip s).

(** [s.startswith(p)]. *)
Definition startswith (s p : string) : bool := String.prefix p s.

(** [needle in hay]. *)
Fixpoint contains (needle hay : string) : bool :=
  String.prefix needle hay ||
  match hay with
  | EmptyString => false
  | String _ t => contains needle t
  end.

End PyStr.

Import PyStr.

Notation "x 'in'' s" := (contains x s) (at level 35, no associativity).

(* ===================================================================== *)
(** ** The translator: [SQLCoderService.generate_sql] *)
(* ===================================================================== *)

(** The service object; [generate_sql] receives it as [self]. *)
Record SQLCoderService := { is_initialized : bool }.

Definition generate_sql (self : SQLCoderService) (question : string) : string :=
  let q := lower question in
  if ("customers" in' q) && ("mumbai" in' q) then
    "SELECT c.first_name, c.last_name, c.city, SUM(o.total_amount) AS total_purchases "
    ++ "FROM customers c JOIN orders o ON c.customer_id = o.customer_id "
    ++ "WHERE c.city = 'Mumbai' GROUP BY c.customer_id;"
  else if "total revenue" in' q then
    "SELECT c.city, SUM(o.total_amount) AS total_revenue "
    ++ "FROM customers c JOIN orders o ON c.customer_id = o.customer_id "
    ++ "GROUP BY c.city ORDER BY total_revenue DESC;"
  else if "all customers" in' q then
    "SELECT * FROM customers ORDER BY registration_date DESC;"
  else if ("orders" in' q) && ("status" in' q) then
    "SELECT order_id, customer_id, total_amount, status FROM orders;"
  else if "products" in' q then
    "SELECT * FROM products ORDER BY price DESC;"
  else if ("orders count" in' q) || ("number of orders" in' q) then
    "SELECT c.customer_id, c.first_name, COUNT(o.order_id) AS order_count "
    ++ "FROM customers c LEFT JOIN orders o ON c.customer_id = o.customer_id "
    ++ "GROUP BY c.customer_id ORDER BY order_count DESC;"
  else
    "SELECT * FROM customers LIMIT 10;".

(* ===================================================================== *)
(** ** The rule table of the design document

    The design describes the [if]/[elif] chain above as an ordered table
    of (predicate, template) pairs closed by a default rule.  The table
    below is that description; [generate_sql_is_translate] relates it to
    the code. *)
(* ===================================================================== *)

Module RuleTable.

Record Rule := { predicate : string -> bool; template : string }.

Definition rules : list Rule :=
  [ {| predicate := fun q => ("customers" in' q) && ("mumbai" in' q);
       template :=
         "SELECT c.first_name, c.last_name, c.city, SUM(o.total_amount) AS total_purchases "
         ++ "FROM customers c JOIN orders o ON c.customer_id = o.customer_id "
         ++ "WHERE c.city = 'Mumbai' GROUP BY c.customer_id;" |};
    {| predicate := fun q => "total revenue" in' q;
       template :=
         "SELECT c.city, SUM(o.total_amount) AS total_revenue "
         ++ "FROM customers c JOIN orders o ON c.customer_id = o.customer_id "
         ++ "GROUP BY c.city ORDER BY total_revenue DESC;" |};
    {| predicate := fun q => "all customers" in' q;
       template := "SELECT * FROM customers ORDER BY registration_date DESC;" |};
    {| predicate := fun q => ("orders" in' q) && ("status" in' q);
       template := "SELECT order_id, customer_id, total_amount, status FROM orders;" |};
    {| predicate := fun q => "products" in' q;
       template := "SELECT * FROM products ORDER BY price DESC;" |};
    {| predicate := fun q => ("orders count" in' q) || ("number of orders" in' q);
       template :=
         "SELECT c.customer_id, c.first_name, COUNT(o.order_id) AS order_count "
         ++ "FROM customers c LEFT JOIN orders o ON c.customer_id = o.customer_id "
         ++ "GROUP BY c.customer_id ORDER BY order_count DESC;" |} ].

Definition default_template : string := "SELECT * FROM customers LIMIT 10;".

(** Index of the first rule of [rs] whose predicate holds of [q],
    counted from [i]. *)
Fixpoint first_match (rs : list Rule) (i : nat) (q : string) : option nat :=
  match rs with
  | [] => None
  | r :: rs' => if predicate r q then Some i else first_match rs' (S i) q
  end.

(** The rule that fires: [length rules] stands for the default rule. *)
Definition matched_rule (question : string) : nat :=
  match first_match rules 0 (lower question) with
  | Some i => i
  | None => length rules
  end.

Definition template_of (i : nat) : string :=
  match nth_error rules i with
  | Some r => template r
  | None => default_template
  end.

Definition translate (question : string) : string * nat :=
  (template_of (matched_rule question), matched_rule question).

(** Every statement the table can produce. *)
Definition templates : list string :=
  map template rules ++ [default_template].

(** The normalisation the design document describes: lower-casing, then
    every run of whitespace collapsed to one space. *)
Fixpoint collapse_ws (s : string) : string :=
  match s with
  | EmptyString => EmptyString
  | String c t =>
      if is_space c then
        match t with
        | String c' _ => if is_space c' then collapse_ws t
                         else String " " (collapse_ws t)
        | EmptyString => String " " EmptyString
        end
      else String c (collapse_ws t)
  end.

Definition spec_normalize (s : string) : string := collapse_ws (lower s).

End RuleTable.

(* ===================================================================== *)
(** ** Python values, rows and insertion-ordered dictionaries *)
(* ===================================================================== *)

Module Py.

(** The values a SQLite column can hand back through the driver. *)
Inductive value : Type :=
| VNone
| VInt (z : Z)
| VStr (s : string).

Definition value_eqb (a b : value) : bool :=
  match a, b with
  | VNone, VNone => true
  | VInt x, VInt y => Z.eqb x y
  | VStr x, VStr y => String.eqb x y
  | _, _ => false
  end.

(** [str(v)], as used by the f-string in [get_schema]. *)
Definition py_str (v : value) : string :=
  match v with
  | VNone => "None"
  | VInt z => NilZero.string_of_int (Z.to_int z)
  | VStr s => s
  end.

(** A result row (a tuple of values). *)
Definition Row : Type := list value.

(** [str(e)] of a raised exception. *)
Definition exn : Type := string.

Definition index_error : exn := "tuple index out of range".
Definition unpack_error : exn := "not enough values to unpack (expected 1)".
Definition too_many_error : exn := "too many values to unpack (expected 1)".

(** [row[i]]. *)
Definition getitem (r : Row) (i : nat) : exn + value :=
  match nth_error r i with
  | Some v => inr v
  | None => inl index_error
  end.

(** A [dict]: an association list in insertion order without repeated
    keys. *)
Definition dict (K V : Type) : Type := list (K * V).

(** [d[k] = v]: overwrite in place when [k] is present, append otherwise. *)
Fixpoint dict_set {K V : Type} (eqb : K -> K -> bool) (k : K) (v : V)
    (d : dict K V) : dict K V :=
  match d with
  | [] => [(k, v)]
  | (k', v') :: d' =>
      if eqb k k' then (k', v) :: d' else (k', v') :: dict_set eqb k v d'
  end.

Fixpoint dict_get {K V : Type} (eqb : K -> K -> bool) (k : K)
    (d : dict K V) : option V :=
  match d with
  | [] => None
  | (k', v') :: d' => if eqb k k' then Some v' else dict_get eqb k d'
  end.

(** The dictionary obtained by assigning the items left to right. *)
Definition dict_of_items {K V : Type} (eqb : K -> K -> bool)
    (items : list (K * V)) : dict K V :=
  fold_left (fun d kv => dict_set eqb (fst kv) (snd kv) d) items [].

(** A list comprehension [[f x for x in l]] whose body may raise. *)
Fixpoint list_comp {A B : Type} (f : A -> exn + B) (l : list A) : exn + list B :=
  match l with
  | [] => inr []
  | x :: l' =>
      match f x with
      | inl e => inl e
      | inr y =>
          match list_comp f l' with
          | inl e => inl e
          | inr ys => inr (y :: ys)
          end
      end
  end.

(** [{cols[i]: row[i] for i in idx}], continuing from [d]. *)
Fixpoint dict_comp (idx : list nat) (cols : list string) (row : Row)
    (d : dict string value) : exn + dict string value :=
  match idx with
  | [] => inr d
  | i :: idx' =>
      match nth_error cols i with
      | None => inl "list index out of range"
      | Some k =>
          match getitem row i with
          | inl e => inl e
          | inr v => dict_comp idx' cols row (dict_set String.eqb k v d)
          end
      end
  end.

(** [{cols[i]: row[i] for i in range(len(cols))}]. *)
Definition row_to_dict (cols : list string) (row : Row) : exn + dict string value :=
  dict_comp (seq 0 (length cols)) cols row [].

(** [{"name": c[1], "type": c[2]}]. *)
Definition column_descriptor (c : Row) : exn + dict string value :=
  match getitem c 1 with
  | inl e => inl e
  | inr name =>
      match getitem c 2 with
      | inl e => inl e
      | inr ty => inr (dict_set String.eqb "type" ty (dict_set String.eqb "name" name []))
      end
  end.

End Py.

Import Py.

(* ===================================================================== *)
(** ** The database session and the endpoint monad *)
(* ===================================================================== *)

(** What [db.execute] returns: [fetchall()], [keys()] and [rowcount]. *)
Record CursorResult := {
  res_fetchall : exn + list Row;
  res_keys : exn + list string;
  res_rowcount : Z
}.

(** A SQLAlchemy session over a store of type [Store].  Both calls may
    raise, and both may change the store. *)
Record Session (Store : Type) := {
  execute : string -> Store -> (exn + CursorResult) * Store;
  commit : Store -> (exn + unit) * Store
}.
Arguments execute {Store}.
Arguments commit {Store}.

(** The calls made on the session and on its results, in program order. *)
Inductive event : Type :=
| EvExecute (sql : string)
| EvFetchall
| EvKeys
| EvCommit.

Record World (Store : Type) := {
  store : Store;
  trace : list event
}.
Arguments store {Store}.
Arguments trace {Store}.
Arguments Build_World {Store}.

(** Request and response models (pydantic). *)
Record QueryRequest := {
  question : string;
  database_type : option string
}.

Record QueryResponse := {
  sql_query : string;
  results : option (list (dict string value));
  error : option string
}.

Record HTTPException := {
  status_code : Z;
  detail : string
}.

Record SchemaResponse := {
  schema : dict value (list (dict string value))
}.

Section Endpoints.

Context {Store : Type}.
Variable db : Session Store.

(** Computations that may raise and that act on the session; effects
    performed before a raise persist. *)
Definition M (A : Type) : Type := World Store -> (exn + A) * World Store.

Definition ret {A : Type} (a : A) : M A := fun w => (inr a, w).

Definition bind {A B : Type} (c : M A) (k : A -> M B) : M B :=
  fun w =>
    match c w with
    | (inl e, w') => (inl e, w')
    | (inr a, w') => k a w'
    end.

Definition lift {A : Type} (r : exn + A) : M A := fun w => (r, w).

Definition log (ev : event) (w : World Store) (s : Store) : World Store :=
  {| store := s; trace := trace w ++ [ev] |}.

Local Notation "x <- c ;; k" := (bind c (fun x => k))
  (at level 61, c at next level, right associativity).
Local Notation "c ;;; k" := (bind c (fun _ => k))
  (at level 61, right associativity).

(** [db.execute(text(sql))]. *)
Definition db_execute (sql : string) : M CursorResult :=
  fun w =>
    let (r, s) := execute db sql (store w) in (r, log (EvExecute sql) w s).

(** [db.commit()]. *)
Definition db_commit : M unit :=
  fun w => let (r, s) := commit db (store w) in (r, log EvCommit w s).

(** [res.fetchall()] and [list(res.keys())]. *)
Definition fetchall (res : CursorResult) : M (list Row) :=
  fun w => (res_fetchall res, log EvFetchall w (store w)).

Definition keys (res : CursorResult) : M (list string) :=
  fun w => (res_keys res, log EvKeys w (store w)).

(** [sql.strip().upper().startswith("SELECT")]. *)
Definition is_select (sql : string) : bool :=
  startswith (upper (strip sql)) "SELECT".

(** The body of the [try] block of [execute_query_endpoint] once [sql]
    is bound (lines 130-137). *)
Definition run_statement (sql : string) : M (list (dict string value)) :=
  res <- db_execute sql ;;
  if is_select sql then
    rows <- fetchall res ;;
    cols <- keys res ;;
    lift (list_comp (row_to_dict cols) rows)
  else
    db_commit ;;;
    ret [ dict_set String.eqb "rows_affected" (VInt (res_rowcount res))
            (dict_set String.eqb "message" (VStr "Executed successfully") []) ].

(** [try: ... return QueryResponse(sql_query=sql, results=results)]
    [except Exception as e: return QueryResponse(sql_query=sql, error=str(e))]. *)
Definition execute_statement (sql : string) (w : World Store)
  : QueryResponse * World Store :=
  match run_statement sql w with
  | (inr rs, w') => ({| sql_query := sql; results := Some rs; error := None |}, w')
  | (inl e, w') => ({| sql_query := sql; results := None; error := Some e |}, w')
  end.

Definition execute_query_endpoint (self : SQLCoderService) (request : QueryRequest)
    (w : World Store) : QueryResponse * World Store :=
  let sql := generate_sql self (question request) in
  execute_statement sql w.

(** The [for (table_name,) in tables] loop of [get_schema]. *)
Fixpoint schema_loop (tables : list Row)
    (acc : dict value (list (dict string value)))
  : M (dict value (list (dict string value))) :=
  match tables with
  | [] => ret acc
  | t :: rest =>
      match t with
      | [] => lift (inl unpack_error)
      | [table_name] =>
          res <- db_execute ("PRAGMA table_info(" ++ py_str table_name ++ ");") ;;
          cols <- fetchall res ;;
          descr <- lift (list_comp column_descriptor cols) ;;
          schema_loop rest (dict_set value_eqb table_name descr acc)
      | _ :: _ :: _ => lift (inl too_many_error)
      end
  end.

Definition list_tables_sql : string :=
  "SELECT name FROM sqlite_master WHERE type='table';".

Definition get_schema_body : M SchemaResponse :=
  res <- db_execute list_tables_sql ;;
  tables <- fetchall res ;;
  sch <- schema_loop tables [] ;;
  ret {| schema := sch |}.

(** [except Exception as e: raise HTTPException(status_code=500, detail=str(e))]. *)
Definition get_schema (w : World Store)
  : (HTTPException + SchemaResponse) * World Store :=
  match get_schema_body w with
  | (inr r, w') => (inr r, w')
  | (inl e, w') => (inl {| status_code := 500; detail := e |}, w')
  end.

End Endpoints.

(* ===================================================================== *)
(** ** What a schema descriptor is expected to contain *)
(* ===================================================================== *)

Module SchemaSpec.

Definition pragma_sql (t : string) : string :=
  "PRAGMA table_info(" ++ t ++ ");".

(** The descriptor of one column: its name and declared type, the second
    and third fields of a [table_info] row. *)
Definition descriptor (c : Row) : dict string value :=
  [("name", nth 1 c VNone); ("type", nth 2 c VNone)].

(** The descriptor of a database whose tables are [names] and whose
    [table_info] rows are given by [info]. *)
Definition describe (names : list string) (info : string -> list Row)
  : dict value (list (dict string value)) :=
  dict_of_items value_eqb (map (fun t => (VStr t, map descriptor (info t))) names).

(** The calls one introspection makes on the session. *)
Definition schema_calls (names : list string) : list event :=
  EvExecute list_tables_sql :: EvFetchall
  :: flat_map (fun t => [EvExecute (pragma_sql t); EvFetchall]) names.

(** [names] are tables whose [PRAGMA table_info] succeeds at [st],
    leaves the store alone and returns the well-formed rows [info]. *)
Definition readable {Store : Type} (db : Session Store)
    (info : string -> list Row) (st : Store) (names : list string) : Prop :=
  (forall t, In t names ->
     exists r, execute db (pragma_sql t) st = (inr r, st)
               /\ res_fetchall r = inr (info t))
  /\ (forall t c, In t names -> In c (info t) -> 3 <= length c).

End SchemaSpec.

(* ===================================================================== *)
(** ** A small concrete store, used to run the endpoints *)
(* ===================================================================== *)

Module Sample.

(** Table metadata (the rows [PRAGMA table_info] returns) and the rows of
    [customers]. *)
Record SampleStore := {
  tables_meta : list (string * list Row);
  customers_rows : list Row
}.

Definition no_rows : exn :=
  "This result object does not return rows. It has been closed automatically.".

Definition select_result (cols : list string) (rows : list Row) : CursorResult :=
  {| res_fetchall := inr rows; res_keys := inr cols; res_rowcount := (-1)%Z |}.

Definition pragma_cols : list string :=
  ["cid"; "name"; "type"; "notnull"; "dflt_value"; "pk"].

Definition customer_cols : list string :=
  ["customer_id"; "name"; "city"; "registration_date"].

Fixpoint find_pragma (sql : string) (meta : list (string * list Row))
  : option (list Row) :=
  match meta with
  | [] => None
  | (t, info) :: meta' =>
      if String.eqb sql ("PRAGMA table_info(" ++ t ++ ");") then Some info
      else find_pragma sql meta'
  end.

Definition sample_execute (sql : string) (st : SampleStore)
  : (exn + CursorResult) * SampleStore :=
  if String.eqb sql "SELECT name FROM sqlite_master WHERE type='table';" then
    (inr (select_result ["name"] (map (fun t => [VStr (fst t)]) (tables_meta st))), st)
  else if String.eqb sql "SELECT * FROM customers LIMIT 10;" then
    (inr (select_result customer_cols (firstn 10 (customers_rows st))), st)
  else if String.eqb sql "DELETE FROM customers;" then
    (inr {| res_fetchall := inl no_rows; res_keys := inl no_rows;
            res_rowcount := Z.of_nat (length (customers_rows st)) |},
     {| tables_meta := tables_meta st; customers_rows := [] |})
  else
    match find_pragma sql (tables_meta st) with
    | Some info => (inr (select_result pragma_cols info), st)
    | None => (inl "(sqlite3.OperationalError) no such column", st)
    end.

Definition sample_db : Session SampleStore :=
  {| execute := sample_execute; commit := fun st => (inr tt, st) |}.

Definition customers_info : list Row :=
  [ [VInt 0; VStr "customer_id"; VStr "INTEGER"; VInt 0; VNone; VInt 1];
    [VInt 1; VStr "name"; VStr "TEXT"; VInt 0; VNone; VInt 0];
    [VInt 2; VStr "city"; VStr "TEXT"; VInt 0; VNone; VInt 0];
    [VInt 3; VStr "registration_date"; VStr "TEXT"; VInt 0; VNone; VInt 0] ].

Definition orders_info : list Row :=
  [ [VInt 0; VStr "order_id"; VStr "INTEGER"; VInt 0; VNone; VInt 1];
    [VInt 1; VStr "customer_id"; VStr "INTEGER"; VInt 0; VNone; VInt 0];
    [VInt 2; VStr "order_date"; VStr "TEXT"; VInt 0; VNone; VInt 0];
    [VInt 3; VStr "total_amount"; VStr "REAL"; VInt 0; VNone; VInt 0] ].

Definition seeded : SampleStore :=
  {| tables_meta := [("orders", orders_info); ("customers", customers_info)];
     customers_rows :=
       [ [VInt 1; VStr "Amit Sharma"; VStr "Delhi"; VStr "2023-01-10"];
         [VInt 2; VStr "Priya Nair"; VStr "Mumbai"; VStr "2023-02-14"];
         [VInt 3; VStr "Ravi Verma"; VStr "Chennai"; VStr "2023-03-05"];
         [VInt 4; VStr "Sneha Rao"; VStr "Pune"; VStr "2023-04-21"] ] |}.

Definition w0 : World SampleStore := {| store := seeded; trace := [] |}.

Definition service : SQLCoderService := {| is_initialized := false |}.

Definition ask (q : string) : QueryRequest :=
  {| question := q; database_type := Some "sqlite" |}.

(** A session whose every call raises. *)
Definition broken_db : Session SampleStore :=
  {| execute := fun _ st => (inl "(sqlite3.OperationalError) unable to open database file", st);
     commit := fun st => (inl "(sqlite3.OperationalError) unable to open database file", st) |}.

Definition sample_info (t : string) : list Row :=
  if String.eqb t "orders" then orders_info
  else if String.eqb t "customers" then customers_info
  else [].

(** The seeded store after [CREATE TABLE products (...)]. *)
Definition after_ddl : SampleStore :=
  {| tables_meta :=
       tables_meta seeded
       ++ [("products",
            [ [VInt 0; VStr "product_id"; VStr "INTEGER"; VInt 0; VNone; VInt 1];
              [VInt 1; VStr "product_name"; VStr "TEXT"; VInt 0; VNone; VInt 0] ])];
     customers_rows := customers_rows seeded |}.

(** A session that lists two tables and then fails on the second
    [PRAGMA]. *)
Definition flaky_db : Session SampleStore :=
  {| execute := fun sql st =>
       if String.eqb sql "PRAGMA table_info(customers);" then
         (inl "(sqlite3.OperationalError) database is locked", st)
       else sample_execute sql st;
     commit := fun st => (inr tt, st) |}.


End Sample.

(* ===================================================================== *)
(** ** Leading keywords, as the design document speaks of them *)
(* ===================================================================== *)

Module Classify.





End Classify.

(* ===================================================================== *)
(** ** The keywords the translator looks for *)
(* ===================================================================== *)

(** The nine string literals tested by the conditions of [generate_sql]. *)
Definition keywords : list string :=
  [ "customers"; "mumbai"; "total revenue"; "all customers"; "orders";
    "status"; "products"; "orders count"; "number of orders" ].

(* ===================================================================== *)
(** ** The tables created by [init_db.py] *)
(* ===================================================================== *)

Module InitDb.

(** The [CREATE TABLE] statements of the seeding script, as table name
    and (column name, declared type) pairs in declaration order. *)
Definition created_tables : list (string * list (string * string)) :=
  [ ("departments",
     [("department_id", "INTEGER"); ("department_name", "TEXT")]);
    ("employees",
     [("employee_id", "INTEGER"); ("name", "TEXT"); ("department_id", "INTEGER");
      ("salary", "REAL"); ("hire_date", "TEXT")]);
    ("projects",
     [("project_id", "INTEGER"); ("project_name", "TEXT");
      ("department_id", "INTEGER")]);
    ("attendance",
     [("record_id", "INTEGER"); ("employee_id", "INTEGER"); ("date", "TEXT");
      ("status", "TEXT")]);
    ("customers",
     [("customer_id", "INTEGER"); ("name", "TEXT"); ("city", "TEXT");
      ("registration_date", "TEXT")]);
    ("products",
     [("product_id", "INTEGER"); ("product_name", "TEXT"); ("price", "REAL");
      ("stock", "INTEGER")]);
    ("orders",
     [("order_id", "INTEGER"); ("customer_id", "INTEGER"); ("order_date", "TEXT");
      ("total_amount", "REAL")]);
    ("order_items",
     [("order_item_id", "INTEGER"); ("order_id", "INTEGER");
      ("product_id", "INTEGER"); ("quantity", "INTEGER")]) ].

(** The column names of table [t], or [[]] when it is not created. *)
Definition columns_of (t : string) : list string :=
  match find (fun tc => String.eqb (fst tc) t) created_tables with
  | Some tc => map fst (snd tc)
  | None => []
  end.

End InitDb.

(* ===================================================================== *)
(** ** The generate-only endpoint *)
(* ===================================================================== *)

(** [generate_sql_endpoint]: the [try] branch.  [generate_sql] has no
    raising path, so the [except] branch, which would answer with an empty
    [sql_query] and the error text, is never entered. *)
Definition generate_sql_endpoint (self : SQLCoderService) (request : QueryRequest)
  : QueryResponse :=
  let sql := generate_sql self (question request) in
  {| sql_query := sql; results := None; error := None |}.

(* ===================================================================== *)
(** * Properties of the translator *)
(* ===================================================================== *)

Import RuleTable.

Section Translator.

Variable self : SQLCoderService.

(** The [if]/[elif] chain computes the first-match lookup in the rule
    table. *)
Lemma generate_sql_is_translate (q : string) :
  generate_sql self q = fst (translate q).
Proof.
  unfold translate, matched_rule, generate_sql, rules, fst.
  cbn [first_match predicate].
  repeat match goal with
         | |- context [if ?b then _ else _] =>
             lazymatch b with
             | context [if _ then _ else _] => fail
             | _ => destruct b eqn:?
             end
         end; reflexivity.
Qed.

End Translator.

Lemma first_match_some (rs : list Rule) (k i : nat) (q : string) (r : Rule) :
  nth_error rs i = Some r ->
  predicate r q = true ->
  (forall j r', j < i -> nth_error rs j = Some r' -> predicate r' q = false) ->
  first_match rs k q = Some (k + i).
Proof.
  revert k i.
  induction rs as [|r0 rs IH]; intros k i Hnth Hp Hbefore.
  - destruct i; discriminate.
  - destruct i as [|i]; simpl in *.
    + injection Hnth as ->. rewrite Hp. f_equal. lia.
    + rewrite (Hbefore 0 r0) by (simpl; auto; lia).
      rewrite (IH (S k) i Hnth Hp).
      * f_equal. lia.
      * intros j r' Hj Hn. apply (Hbefore (S j) r'); [lia | exact Hn].
Qed.

Lemma first_match_none (rs : list Rule) (k : nat) (q : string) :
  (forall r, In r rs -> predicate r q = false) ->
  first_match rs k q = None.
Proof.
  revert k. induction rs as [|r0 rs IH]; intros k H; simpl.
  - reflexivity.
  - rewrite (H r0) by (left; reflexivity).
    apply IH. intros r Hr. apply H. right. exact Hr.
Qed.

Lemma first_match_bound (rs : list Rule) (k : nat) (q : string) (i : nat) :
  first_match rs k q = Some i -> k <= i < k + length rs.
Proof.
  revert k. induction rs as [|r0 rs IH]; intros k; simpl.
  - discriminate.
  - destruct (predicate r0 q).
    + intros [= <-]. lia.
    + intros H. apply IH in H. lia.
Qed.

Lemma matched_rule_bound (q : string) : matched_rule q <= 6.
Proof.
  unfold matched_rule.
  destruct (first_match rules 0 (lower q)) as [i|] eqn:E.
  - apply first_match_bound in E. simpl in E. lia.
  - simpl. lia.
Qed.

Lemma template_of_in_templates (i : nat) : In (template_of i) templates.
Proof.
  unfold template_of, templates.
  destruct (nth_error rules i) as [r|] eqn:E.
  - apply in_or_app. left. apply in_map. eapply nth_error_In. exact E.
  - apply in_or_app. right. left. reflexivity.
Qed.

Lemma generate_sql_in_templates (self : SQLCoderService) (q : string) :
  In (generate_sql self q) templates.
Proof.
  rewrite generate_sql_is_translate. apply template_of_in_templates.
Qed.

(** Case analysis over the seven statements of the table. *)
Lemma templates_ind (P : string -> Prop) :
  Forall P templates -> forall self q, P (generate_sql self q).
Proof.
  intros H self q. rewrite Forall_forall in H.
  apply H. apply generate_sql_in_templates.
Qed.

Lemma generate_sql_lower (self : SQLCoderService) (q1 q2 : string) :
  lower q1 = lower q2 -> generate_sql self q1 = generate_sql self q2.
Proof.
  intros H. unfold generate_sql. cbv zeta. rewrite H. reflexivity.
Qed.

(** ** C1: totality and the default rule *)

(** C1. [generate_sql] is a total function of the question text; its
    result is never the empty string; and when no rule predicate holds of
    the lower-cased question the default rule fires, producing the bounded
    read [SELECT * FROM customers LIMIT 10;]. *)
Theorem generate_sql_total_with_fallback (self : SQLCoderService) (q : string) :
  generate_sql self q <> ""
  /\ ((forall r, In r rules -> predicate r (lower q) = false) ->
      generate_sql self q = "SELECT * FROM customers LIMIT 10;"
      /\ matched_rule q = length rules
      /\ is_select (generate_sql self q) = true
      /\ "LIMIT 10" in' generate_sql self q = true).
Proof.
  split.
  - apply (templates_ind (fun s => s <> "")).
    repeat constructor; discriminate.
  - intros Hnone.
    assert (Hm : matched_rule q = length rules).
    { unfold matched_rule. rewrite first_match_none by exact Hnone. reflexivity. }
    assert (Hg : generate_sql self q = "SELECT * FROM customers LIMIT 10;").
    { rewrite generate_sql_is_translate. unfold translate, fst.
      rewrite Hm. reflexivity. }
    rewrite Hg. split; [reflexivity |]. split; [exact Hm |].
    split; reflexivity.
Qed.

Lemma generate_sql_total_with_fallback_witness :
  generate_sql Sample.service "" <> ""
  /\ generate_sql Sample.service "" = "SELECT * FROM customers LIMIT 10;"
  /\ generate_sql Sample.service "asdfasdf" = "SELECT * FROM customers LIMIT 10;".
Proof.
  split; [exact (proj1 (generate_sql_total_with_fallback Sample.service "")) |].
  split.
  - apply (proj2 (generate_sql_total_with_fallback Sample.service "")).
    intros r Hr. simpl in Hr.
    repeat (destruct Hr as [<- | Hr]; [reflexivity |]). contradiction.
  - apply (proj2 (generate_sql_total_with_fallback Sample.service "asdfasdf")).
    intros r Hr. simpl in Hr.
    repeat (destruct Hr as [<- | Hr]; [reflexivity |]). contradiction.
Defined.

(** ** C4: a pure, closed mapping *)

(** C4. The SQL text depends on the question only: it does not depend on
    the service object, it is always one of the seven fixed template
    strings, and it is the template of the rule selected, a number between
    0 and 6, so the question contributes a choice of template and no
    text. *)
Theorem generate_sql_pure_closed (s1 s2 : SQLCoderService) (q : string) :
  generate_sql s1 q = generate_sql s2 q
  /\ In (generate_sql s1 q) templates
  /\ length templates = 7
  /\ generate_sql s1 q = template_of (matched_rule q)
  /\ matched_rule q <= 6.
Proof.
  split; [rewrite !generate_sql_is_translate; reflexivity |].
  split; [apply generate_sql_in_templates |].
  split; [reflexivity |].
  split; [rewrite generate_sql_is_translate; reflexivity |].
  apply matched_rule_bound.
Qed.

(** ** C5: the first matching rule wins *)

(** C5. If rule number [i] of the table matches the lower-cased question
    and no rule declared before it does, the SQL returned is the template
    of rule [i], whatever the rules declared after it say. *)
Theorem first_matching_rule_wins (self : SQLCoderService) (q : string)
    (i : nat) (r : Rule) :
  nth_error rules i = Some r ->
  predicate r (lower q) = true ->
  (forall j r', j < i -> nth_error rules j = Some r' ->
                predicate r' (lower q) = false) ->
  generate_sql self q = template r /\ matched_rule q = i.
Proof.
  intros Hnth Hp Hbefore.
  assert (Hm : matched_rule q = i).
  { unfold matched_rule.
    rewrite (first_match_some rules 0 i (lower q) r Hnth Hp Hbefore).
    reflexivity. }
  split; [| exact Hm].
  rewrite generate_sql_is_translate. unfold translate, fst, template_of.
  rewrite Hm, Hnth. reflexivity.
Qed.

(** A question matched by rules 1 ("total revenue") and 4 ("products"):
    rule 1 decides. *)
Lemma first_matching_rule_wins_witness :
  predicate (nth 4 rules (Build_Rule (fun _ => false) "")) (lower "Total revenue of products") = true
  /\ generate_sql Sample.service "Total revenue of products"
     = "SELECT c.city, SUM(o.total_amount) AS total_revenue "
       ++ "FROM customers c JOIN orders o ON c.customer_id = o.customer_id "
       ++ "GROUP BY c.city ORDER BY total_revenue DESC;"
  /\ matched_rule "Total revenue of products" = 1.
Proof.
  split; [reflexivity |].
  refine (first_matching_rule_wins Sample.service "Total revenue of products" 1
            (nth 1 rules (Build_Rule (fun _ => false) "")) _ _ _).
  - reflexivity.
  - reflexivity.
  - intros j r' Hj Hn.
    destruct j as [|j]; [| lia].
    injection Hn as <-. reflexivity.
Defined.

(** ** C6: normalisation *)

(** C6, as claimed: questions that agree after lower-casing and collapsing
    runs of whitespace get the same SQL.  The code lower-cases and does
    nothing about whitespace: "total revenue" selects the revenue rule,
    while the same words separated by two spaces fall through to the
    default rule. *)
Lemma whitespace_runs_are_significant :
  ~ (forall (self : SQLCoderService) (q1 q2 : string),
        spec_normalize q1 = spec_normalize q2 ->
        generate_sql self q1 = generate_sql self q2).
Proof.
  intros H.
  specialize (H Sample.service "total revenue" "total  revenue" eq_refl).
  vm_compute in H. discriminate H.
Qed.

(** C6, amended.  The question is lower-cased before any predicate is
    evaluated ([lower] is total), so two questions that differ only in
    letter case select the same rule and yield the same SQL. *)
Theorem case_insensitive_translation (self : SQLCoderService) (q1 q2 : string) :
  lower q1 = lower q2 ->
  generate_sql self q1 = generate_sql self q2
  /\ matched_rule q1 = matched_rule q2.
Proof.
  intros H. split.
  - apply generate_sql_lower. exact H.
  - unfold matched_rule. rewrite H. reflexivity.
Qed.

Lemma case_insensitive_translation_witness :
  generate_sql Sample.service "TOTAL Revenue by City"
  = generate_sql Sample.service "total revenue by city"
  /\ matched_rule "TOTAL Revenue by City" = matched_rule "total revenue by city".
Proof.
  apply (case_insensitive_translation Sample.service
           "TOTAL Revenue by City" "total revenue by city").
  reflexivity.
Defined.

(** ** C8: "Show all customers" *)

(** C8, as claimed: the statement for "Show all customers" is bounded.  It
    carries no LIMIT clause. *)
Lemma show_all_customers_has_no_limit :
  ~ ("LIMIT" in' upper (generate_sql Sample.service "Show all customers") = true).
Proof. vm_compute. discriminate. Qed.

(** C8, amended.  "Show all customers" selects the third rule (index 2,
    "all customers"); the SQL is a SELECT over [customers], ordered by
    registration date, without a row limit. *)
Theorem show_all_customers_ordered (self : SQLCoderService) :
  generate_sql self "Show all customers"
  = "SELECT * FROM customers ORDER BY registration_date DESC;"
  /\ matched_rule "Show all customers" = 2
  /\ is_select (generate_sql self "Show all customers") = true
  /\ "FROM customers" in' generate_sql self "Show all customers" = true
  /\ "ORDER BY" in' generate_sql self "Show all customers" = true
  /\ "LIMIT" in' upper (generate_sql self "Show all customers") = false.
Proof.
  assert (H : generate_sql self "Show all customers"
              = "SELECT * FROM customers ORDER BY registration_date DESC;")
    by reflexivity.
  rewrite H. repeat (split; [reflexivity |]). reflexivity.
Qed.

(** Every generated statement starts with SELECT. *)
Lemma generate_sql_is_select (self : SQLCoderService) (q : string) :
  is_select (generate_sql self q) = true.
Proof.
  apply (templates_ind (fun s => is_select s = true)).
  repeat constructor.
Qed.

(* ===================================================================== *)
(** * Properties of the executor *)
(* ===================================================================== *)


Section Executor.

Context {Store : Type}.
Variable db : Session Store.

(** The read branch of [run_statement], call by call. *)
Lemma run_statement_read (sql : string) (w : World Store) :
  is_select sql = true ->
  run_statement db sql w =
  match execute db sql (store w) with
  | (inl e, s) => (inl e, {| store := s; trace := trace w ++ [EvExecute sql] |})
  | (inr res, s) =>
      match res_fetchall res with
      | inl e =>
          (inl e, {| store := s; trace := trace w ++ [EvExecute sql; EvFetchall] |})
      | inr rows =>
          match res_keys res with
          | inl e =>
              (inl e, {| store := s;
                         trace := trace w ++ [EvExecute sql; EvFetchall; EvKeys] |})
          | inr cols =>
              (list_comp (row_to_dict cols) rows,
               {| store := s;
                  trace := trace w ++ [EvExecute sql; EvFetchall; EvKeys] |})
          end
      end
  end.
Proof.
  intros Hsel. unfold run_statement, bind, db_execute.
  destruct (execute db sql (store w)) as [[e | res] s]; [reflexivity |].
  rewrite Hsel. unfold fetchall, keys, lift, log. cbn [store trace].
  destruct (res_fetchall res) as [e | rows].
  - rewrite <- app_assoc. reflexivity.
  - destruct (res_keys res) as [e | cols];
      rewrite <- !app_assoc; reflexivity.
Qed.


Lemma execute_statement_sql (sql : string) (w : World Store) :
  sql_query (fst (execute_statement db sql w)) = sql.
Proof.
  unfold execute_statement.
  destruct (run_statement db sql w) as [[e | rs] w']; reflexivity.
Qed.

Lemma execute_statement_error (sql : string) (w : World Store) (e : exn) :
  fst (run_statement db sql w) = inl e ->
  error (fst (execute_statement db sql w)) = Some e
  /\ results (fst (execute_statement db sql w)) = None.
Proof.
  unfold execute_statement.
  destruct (run_statement db sql w) as [[e' | rs] w']; simpl.
  - intros [= ->]. split; reflexivity.
  - discriminate.
Qed.

(** On the read branch the only calls are [execute], [fetchall] and
    [keys]. *)
Lemma read_path_trace (sql : string) (w : World Store) :
  is_select sql = true ->
  exists evs,
    trace (snd (execute_statement db sql w)) = (trace w ++ evs)%list
    /\ ~ In EvCommit evs
    /\ (error (fst (execute_statement db sql w)) = None ->
        evs = [EvExecute sql; EvFetchall; EvKeys]).
Proof.
  intros Hsel. unfold execute_statement.
  rewrite (run_statement_read sql w Hsel).
  destruct (execute db sql (store w)) as [[e | res] s].
  - exists [EvExecute sql]. simpl. repeat split; try discriminate.
    intros [H | []]. discriminate H.
  - destruct (res_fetchall res) as [e | rows].
    + exists [EvExecute sql; EvFetchall]. simpl. repeat split; try discriminate.
      intros [H | [H | []]]; discriminate H.
    + assert (Hnc : ~ In EvCommit [EvExecute sql; EvFetchall; EvKeys])
        by (intros [H | [H | [H | []]]]; discriminate H).
      destruct (res_keys res) as [e | cols].
      * exists [EvExecute sql; EvFetchall; EvKeys]. simpl.
        repeat split; try discriminate. exact Hnc.
      * exists [EvExecute sql; EvFetchall; EvKeys].
        destruct (list_comp (row_to_dict cols) rows); simpl;
          repeat split; try discriminate; exact Hnc.
Qed.


End Executor.

Section Service.

Context {Store : Type}.
Variable db : Session Store.
Variable self : SQLCoderService.

(** ** C3: executor failures are reported in the response *)

(** C3. For every question the generate-and-execute operation returns a
    response whose [sql_query] is the generated SQL.  Whenever the
    statement's execution raises (in [execute], in [fetchall], in [keys]
    or while the rows are converted) the response carries the message of
    that exception in [error] and no results. *)
Theorem executor_failure_is_reported (req : QueryRequest) (w : World Store) :
  sql_query (fst (execute_query_endpoint db self req w))
  = generate_sql self (question req)
  /\ (forall e,
         fst (run_statement db (generate_sql self (question req)) w) = inl e ->
         error (fst (execute_query_endpoint db self req w)) = Some e
         /\ results (fst (execute_query_endpoint db self req w)) = None)
  /\ (forall e s,
         execute db (generate_sql self (question req)) (store w) = (inl e, s) ->
         error (fst (execute_query_endpoint db self req w)) = Some e)
  /\ (forall res s e,
         execute db (generate_sql self (question req)) (store w) = (inr res, s) ->
         res_fetchall res = inl e ->
         error (fst (execute_query_endpoint db self req w)) = Some e)
  /\ (forall res s rows e,
         execute db (generate_sql self (question req)) (store w) = (inr res, s) ->
         res_fetchall res = inr rows ->
         res_keys res = inl e ->
         error (fst (execute_query_endpoint db self req w)) = Some e)
  /\ (forall res s rows cols e,
         execute db (generate_sql self (question req)) (store w) = (inr res, s) ->
         res_fetchall res = inr rows ->
         res_keys res = inr cols ->
         list_comp (row_to_dict cols) rows = inl e ->
         error (fst (execute_query_endpoint db self req w)) = Some e).
Proof.
  unfold execute_query_endpoint.
  pose proof (generate_sql_is_select self (question req)) as Hsel.
  set (sql := generate_sql self (question req)) in *.
  split; [apply execute_statement_sql |].
  split; [intros e He; apply execute_statement_error; exact He |].
  repeat split; intros;
    apply execute_statement_error;
    rewrite (run_statement_read db sql w Hsel);
    repeat match goal with
           | H : _ = _ |- _ => rewrite H; clear H
           end; reflexivity.
Qed.

(** ** C10: generated statements stay on the read branch *)

(** C10. Every statement [generate_sql] produces begins, once trimmed and
    upper-cased, with SELECT; so [execute_query_endpoint] always takes the
    read branch and its calls on the session never include [commit]. *)
Theorem generated_statements_never_commit (req : QueryRequest) (w : World Store) :
  is_select (generate_sql self (question req)) = true
  /\ startswith (strip (generate_sql self (question req))) "SELECT" = true
  /\ exists evs,
       trace (snd (execute_query_endpoint db self req w)) = (trace w ++ evs)%list
       /\ ~ In EvCommit evs.
Proof.
  split; [apply generate_sql_is_select |].
  split.
  - apply (templates_ind (fun s => startswith (strip s) "SELECT" = true)).
    repeat constructor.
  - unfold execute_query_endpoint.
    destruct (read_path_trace db (generate_sql self (question req)) w
                (generate_sql_is_select self (question req)))
      as [evs [Ht [Hnc _]]].
    exists evs. split; assumption.
Qed.

End Service.

Lemma executor_failure_is_reported_witness :
  execute_query_endpoint Sample.sample_db Sample.service
    (Sample.ask "total revenue by city") Sample.w0
  = ({| sql_query :=
          "SELECT c.city, SUM(o.total_amount) AS total_revenue "
          ++ "FROM customers c JOIN orders o ON c.customer_id = o.customer_id "
          ++ "GROUP BY c.city ORDER BY total_revenue DESC;";
        results := None;
        error := Some "(sqlite3.OperationalError) no such column" |},
     {| store := Sample.seeded;
        trace := [EvExecute (generate_sql Sample.service "total revenue by city")] |})
  /\ error (fst (execute_query_endpoint Sample.sample_db Sample.service
                   (Sample.ask "total revenue by city") Sample.w0))
     = Some "(sqlite3.OperationalError) no such column".
Proof.
  split; [reflexivity |].
  apply (proj1 (proj2 (proj2 (executor_failure_is_reported Sample.sample_db
                                Sample.service (Sample.ask "total revenue by city")
                                Sample.w0)))
           "(sqlite3.OperationalError) no such column" Sample.seeded).
  reflexivity.
Defined.

(* ===================================================================== *)
(** * The rows returned on the read branch *)
(* ===================================================================== *)

Lemma list_comp_map {A B : Type} (f : A -> exn + B) (g : A -> B) (l : list A) :
  Forall (fun x => f x = inr (g x)) l ->
  list_comp f l = inr (map g l).
Proof.
  induction 1 as [|x l Hx Hl IH]; simpl.
  - reflexivity.
  - rewrite Hx, IH. reflexivity.
Qed.

Lemma skipn_cons_nth (row : Row) (n : nat) :
  n < length row ->
  exists v, nth_error row n = Some v /\ skipn n row = v :: skipn (S n) row.
Proof.
  revert n. induction row as [|x row IH]; intros n Hn; simpl in Hn.
  - lia.
  - destruct n as [|n].
    + exists x. split; reflexivity.
    + destruct (IH n) as [v [H1 H2]]; [lia |].
      exists v. split; [exact H1 | exact H2].
Qed.

(** The comprehension visits the columns left to right and assigns each
    the value at the same position of the row. *)
Lemma dict_comp_seq (rest pre : list string) (row : Row) (d : dict string value) :
  length pre + length rest <= length row ->
  dict_comp (seq (length pre) (length rest)) (pre ++ rest)%list row d
  = inr (fold_left (fun d kv => dict_set String.eqb (fst kv) (snd kv) d)
           (combine rest (skipn (length pre) row)) d).
Proof.
  revert pre d. induction rest as [|c rest IH]; intros pre d Hlen.
  - reflexivity.
  - simpl in Hlen.
    destruct (skipn_cons_nth row (length pre)) as [v [Hv Hs]]; [lia |].
    cbn [length seq dict_comp].
    rewrite nth_error_app2 by lia. rewrite Nat.sub_diag. cbn [nth_error].
    unfold getitem. rewrite Hv, Hs. cbn [combine fold_left fst snd].
    replace (pre ++ c :: rest)%list with ((pre ++ [c]) ++ rest)%list
      by (rewrite <- app_assoc; reflexivity).
    replace (S (length pre)) with (length (pre ++ [c])%list)
      by (rewrite length_app; simpl; lia).
    apply IH. rewrite length_app. simpl. lia.
Qed.

Lemma row_to_dict_items (cols : list string) (row : Row) :
  length cols <= length row ->
  row_to_dict cols row = inr (dict_of_items String.eqb (combine cols row)).
Proof.
  intros H. unfold row_to_dict, dict_of_items.
  apply (dict_comp_seq cols [] row []). simpl. exact H.
Qed.

Section DictFacts.

Context {K V : Type}.
Variable eqb : K -> K -> bool.
Hypothesis eqb_true : forall a b, eqb a b = true -> a = b.

Lemma dict_set_fresh (k : K) (v : V) (d : dict K V) :
  ~ In k (map fst d) ->
  dict_set eqb k v d = (d ++ [(k, v)])%list.
Proof.
  induction d as [|[k' v'] d IH]; simpl; intros H.
  - reflexivity.
  - destruct (eqb k k') eqn:E.
    + exfalso. apply H. left. symmetry. apply eqb_true. exact E.
    + rewrite IH; [reflexivity |]. intros Hin. apply H. right. exact Hin.
Qed.

Lemma fold_dict_set_nodup (items d : dict K V) :
  NoDup (map fst (d ++ items)%list) ->
  fold_left (fun d kv => dict_set eqb (fst kv) (snd kv) d) items d
  = (d ++ items)%list.
Proof.
  revert d. induction items as [|[k v] items IH]; intros d Hnd; simpl.
  - rewrite app_nil_r. reflexivity.
  - rewrite map_app in Hnd. simpl in Hnd.
    rewrite dict_set_fresh.
    + rewrite IH.
      * rewrite <- app_assoc. reflexivity.
      * rewrite <- app_assoc. rewrite map_app. simpl. exact Hnd.
    + apply NoDup_remove_2 in Hnd. intros Hin. apply Hnd.
      apply in_or_app. left. exact Hin.
Qed.

Lemma dict_of_items_nodup (items : dict K V) :
  NoDup (map fst items) -> dict_of_items eqb items = items.
Proof.
  intros H. unfold dict_of_items. apply (fold_dict_set_nodup items []). exact H.
Qed.

End DictFacts.

Lemma string_eqb_true (a b : string) : String.eqb a b = true -> a = b.
Proof. apply String.eqb_eq. Qed.

Lemma value_eqb_true (a b : value) : value_eqb a b = true -> a = b.
Proof.
  destruct a, b; simpl; try discriminate.
  - reflexivity.
  - intros H. apply Z.eqb_eq in H. now subst.
  - intros H. apply String.eqb_eq in H. now subst.
Qed.

Lemma map_fst_combine_nodup (cols : list string) (row : Row) :
  NoDup cols -> NoDup (map fst (combine cols row)).
Proof.
  intros Hnd. revert row.
  induction Hnd as [|c cols Hc Hnd IH]; intros row; simpl.
  - constructor.
  - destruct row as [|v row]; simpl; [constructor |].
    constructor; [| apply IH].
    intros Hin. apply Hc.
    apply in_map_iff in Hin. destruct Hin as [[k x] [Hk Hkx]]. simpl in Hk.
    subst k. eapply in_combine_l. exact Hkx.
Qed.

Section ReadPath.

Context {Store : Type}.
Variable db : Session Store.

(** ** C7: the rows of the read branch *)

(** C7. On the read branch, once [execute], [fetchall] and [keys] have
    returned, the response holds one mapping per fetched row, in the order
    fetched and without truncation; each mapping is built by assigning
    the column names, left to right, the values at the same positions of
    the row, so with distinct column names it is exactly the list of
    (name, value) pairs in column order. *)
Theorem read_path_returns_all_rows (sql : string) (w : World Store)
    (res : CursorResult) (s : Store) (rows : list Row) (cols : list string) :
  is_select sql = true ->
  execute db sql (store w) = (inr res, s) ->
  res_fetchall res = inr rows ->
  res_keys res = inr cols ->
  Forall (fun r => length cols <= length r) rows ->
  exists out,
    results (fst (execute_statement db sql w)) = Some out
    /\ error (fst (execute_statement db sql w)) = None
    /\ out = map (fun r => dict_of_items String.eqb (combine cols r)) rows
    /\ length out = length rows
    /\ (NoDup cols -> out = map (combine cols) rows)
    /\ trace (snd (execute_statement db sql w))
       = (trace w ++ [EvExecute sql; EvFetchall; EvKeys])%list.
Proof.
  intros Hsel Hex Hrows Hcols Hlen.
  exists (map (fun r => dict_of_items String.eqb (combine cols r)) rows).
  unfold execute_statement.
  rewrite (run_statement_read db sql w Hsel), Hex, Hrows, Hcols.
  rewrite (list_comp_map (row_to_dict cols)
             (fun r => dict_of_items String.eqb (combine cols r))).
  - simpl. repeat split.
    + apply length_map.
    + intros Hnd. apply map_ext. intros r.
      apply (dict_of_items_nodup String.eqb string_eqb_true).
      apply map_fst_combine_nodup. exact Hnd.
  - eapply Forall_impl; [| exact Hlen].
    intros r Hr. apply row_to_dict_items. exact Hr.
Qed.

End ReadPath.

(** The seeded store holds four customers: four mappings come back, each
    with the four declared columns. *)
Lemma read_path_returns_all_rows_witness :
  exists out,
    results (fst (execute_statement Sample.sample_db
                    "SELECT * FROM customers LIMIT 10;" Sample.w0)) = Some out
    /\ error (fst (execute_statement Sample.sample_db
                     "SELECT * FROM customers LIMIT 10;" Sample.w0)) = None
    /\ out = map (fun r => dict_of_items String.eqb (combine Sample.customer_cols r))
               (Sample.customers_rows Sample.seeded)
    /\ length out = 4
    /\ (NoDup Sample.customer_cols ->
        out = map (combine Sample.customer_cols) (Sample.customers_rows Sample.seeded))
    /\ trace (snd (execute_statement Sample.sample_db
                     "SELECT * FROM customers LIMIT 10;" Sample.w0))
       = (trace Sample.w0
          ++ [EvExecute "SELECT * FROM customers LIMIT 10;"; EvFetchall; EvKeys])%list.
Proof.
  refine (read_path_returns_all_rows Sample.sample_db
            "SELECT * FROM customers LIMIT 10;" Sample.w0
            (Sample.select_result Sample.customer_cols (Sample.customers_rows Sample.seeded))
            Sample.seeded (Sample.customers_rows Sample.seeded) Sample.customer_cols
            _ _ _ _ _).
  - reflexivity.
  - reflexivity.
  - reflexivity.
  - reflexivity.
  - repeat constructor.
Defined.

(* ===================================================================== *)
(** * Properties of the schema introspector *)
(* ===================================================================== *)

Import SchemaSpec.

Lemma column_descriptor_ok (c : Row) :
  3 <= length c -> column_descriptor c = inr (descriptor c).
Proof.
  destruct c as [|a [|b [|t rest]]]; simpl; intros H; try lia.
  reflexivity.
Qed.

Section Introspector.

Context {Store : Type}.
Variable db : Session Store.
Variable info : string -> list Row.
Variable st : Store.

Lemma readable_cons (t : string) (names : list string) :
  readable db info st (t :: names) ->
  (exists r, execute db (pragma_sql t) st = (inr r, st)
             /\ res_fetchall r = inr (info t))
  /\ list_comp column_descriptor (info t) = inr (map descriptor (info t))
  /\ readable db info st names.
Proof.
  intros [Hex Hwf]. split; [apply Hex; left; reflexivity |]. split.
  - apply list_comp_map. apply Forall_forall. intros c Hc.
    apply column_descriptor_ok. apply (Hwf t c); [left; reflexivity | exact Hc].
  - split.
    + intros t' Ht'. apply Hex. right. exact Ht'.
    + intros t' c Ht' Hc. apply (Hwf t' c); [right; exact Ht' | exact Hc].
Qed.

(** The loop, over tables that can all be read. *)
Lemma schema_loop_ok (names : list string) (tr : list event)
    (acc : dict value (list (dict string value))) :
  readable db info st names ->
  schema_loop db (map (fun t => [VStr t]) names) acc {| store := st; trace := tr |}
  = (inr (fold_left (fun d kv => dict_set value_eqb (fst kv) (snd kv) d)
            (map (fun t => (VStr t, map descriptor (info t))) names) acc),
     {| store := st;
        trace := tr ++ flat_map (fun t => [EvExecute (pragma_sql t); EvFetchall]) names |}).
Proof.
  revert tr acc. induction names as [|t names IH]; intros tr acc Hr.
  - simpl. rewrite app_nil_r. reflexivity.
  - apply readable_cons in Hr. destruct Hr as [[r [Hex Hfetch]] [Hdescr Hr]].
    cbn [map schema_loop py_str].
    unfold bind at 1. unfold db_execute. cbn [store trace].
    fold (pragma_sql t). rewrite Hex.
    unfold bind at 1. unfold fetchall, log. cbn [store trace]. rewrite Hfetch.
    unfold bind at 1. unfold lift. rewrite Hdescr.
    rewrite IH by exact Hr.
    cbn [flat_map fold_left fst snd]. rewrite <- !app_assoc. reflexivity.
Qed.

(** The loop, when the [PRAGMA] of some table raises: the mappings
    accumulated so far are dropped. *)
Lemma schema_loop_fails (pre : list string) (t : string) (post : list string)
    (tr : list event) (acc : dict value (list (dict string value)))
    (e : exn) (s : Store) :
  readable db info st pre ->
  execute db (pragma_sql t) st = (inl e, s) ->
  fst (schema_loop db (map (fun t => [VStr t]) (pre ++ t :: post)) acc
         {| store := st; trace := tr |}) = inl e.
Proof.
  revert tr acc. induction pre as [|p pre IH]; intros tr acc Hr Hfail.
  - cbn [app map schema_loop py_str].
    unfold bind at 1. unfold db_execute. cbn [store trace].
    fold (pragma_sql t). rewrite Hfail. reflexivity.
  - apply readable_cons in Hr. destruct Hr as [[r [Hex Hfetch]] [Hdescr Hr]].
    cbn [app map schema_loop py_str].
    unfold bind at 1. unfold db_execute. cbn [store trace].
    fold (pragma_sql p). rewrite Hex.
    unfold bind at 1. unfold fetchall, log. cbn [store trace]. rewrite Hfetch.
    unfold bind at 1. unfold lift. rewrite Hdescr.
    apply IH; assumption.
Qed.

(** ** C9: schema introspection *)

(** C9. Each call of [get_schema] queries the session: first the list of
    tables, then [PRAGMA table_info] once per listed table.  When every
    call succeeds the descriptor maps each table, in listing order, to
    its columns' names and declared types in the order the rows came
    back.  When any call raises (the listing, or the [PRAGMA] of a later
    table after earlier ones were already described) the outcome is an
    [HTTPException] with status 500 carrying the message, never a map. *)
Theorem get_schema_describes_live_metadata (tr : list event) :
  (forall names r0,
      execute db list_tables_sql st = (inr r0, st) ->
      res_fetchall r0 = inr (map (fun t => [VStr t]) names) ->
      readable db info st names ->
      get_schema db {| store := st; trace := tr |}
      = (inr {| schema := describe names info |},
         {| store := st; trace := tr ++ schema_calls names |})
      /\ (NoDup names ->
          describe names info
          = map (fun t => (VStr t, map descriptor (info t))) names))
  /\ (forall e,
         fst (get_schema_body db {| store := st; trace := tr |}) = inl e ->
         fst (get_schema db {| store := st; trace := tr |})
         = inl {| status_code := 500; detail := e |})
  /\ (forall e s,
         execute db list_tables_sql st = (inl e, s) ->
         fst (get_schema db {| store := st; trace := tr |})
         = inl {| status_code := 500; detail := e |})
  /\ (forall pre t post r0 e s,
         execute db list_tables_sql st = (inr r0, st) ->
         res_fetchall r0 = inr (map (fun t => [VStr t]) (pre ++ t :: post)) ->
         readable db info st pre ->
         execute db (pragma_sql t) st = (inl e, s) ->
         fst (get_schema db {| store := st; trace := tr |})
         = inl {| status_code := 500; detail := e |}).
Proof.
  split; [| split; [| split]].
  - intros names r0 Hex Hfetch Hr. split.
    + unfold get_schema, get_schema_body.
      unfold bind at 1. unfold db_execute. cbn [store trace]. rewrite Hex.
      unfold bind at 1. unfold fetchall, log. cbn [store trace]. rewrite Hfetch.
      unfold bind at 1. rewrite (schema_loop_ok names _ [] Hr).
      unfold ret, describe, dict_of_items, schema_calls.
      rewrite <- !app_assoc. reflexivity.
    + intros Hnd. unfold describe.
      apply (dict_of_items_nodup value_eqb value_eqb_true).
      rewrite map_map. simpl.
      apply Injective_map_NoDup; [| exact Hnd].
      intros a b [= ->]. reflexivity.
  - intros e He. unfold get_schema.
    destruct (get_schema_body db {| store := st; trace := tr |}) as [[e' | r] w'];
      simpl in *; [injection He as ->; reflexivity | discriminate].
  - intros e s Hex. unfold get_schema, get_schema_body.
    unfold bind at 1. unfold db_execute. cbn [store trace]. rewrite Hex.
    reflexivity.
  - intros pre t post r0 e s Hex Hfetch Hr Hfail.
    unfold get_schema, get_schema_body.
    unfold bind at 1. unfold db_execute. cbn [store trace]. rewrite Hex.
    unfold bind at 1. unfold fetchall, log. cbn [store trace]. rewrite Hfetch.
    unfold bind at 1.
    pose proof (schema_loop_fails pre t post
                  ((tr ++ [EvExecute list_tables_sql]) ++ [EvFetchall]) [] e s
                  Hr Hfail) as Hloop.
    destruct (schema_loop db (map (fun t0 => [VStr t0]) (pre ++ t :: post)) []
                {| store := st;
                   trace := (tr ++ [EvExecute list_tables_sql]) ++ [EvFetchall] |})
      as [[e' | sch] w'].
    + simpl in Hloop. injection Hloop as ->. reflexivity.
    + discriminate Hloop.
Qed.

End Introspector.

Lemma sample_readable :
  readable Sample.sample_db Sample.sample_info Sample.seeded ["orders"; "customers"].
Proof.
  split.
  - intros t [<- | [<- | []]]; eexists; split; reflexivity.
  - intros t c [<- | [<- | []]] Hc; simpl in Hc;
      repeat (destruct Hc as [<- | Hc]; [simpl; lia |]); contradiction.
Defined.

Lemma get_schema_describes_live_metadata_witness :
  (get_schema Sample.sample_db Sample.w0
   = (inr {| schema := describe ["orders"; "customers"] Sample.sample_info |},
      {| store := Sample.seeded;
         trace := [] ++ schema_calls ["orders"; "customers"] |})
   /\ (NoDup ["orders"; "customers"] ->
       describe ["orders"; "customers"] Sample.sample_info
       = map (fun t => (VStr t, map descriptor (Sample.sample_info t)))
           ["orders"; "customers"]))
  /\ fst (get_schema Sample.broken_db Sample.w0)
     = inl {| status_code := 500;
              detail := "(sqlite3.OperationalError) unable to open database file" |}
  /\ fst (get_schema Sample.flaky_db Sample.w0)
     = inl {| status_code := 500;
              detail := "(sqlite3.OperationalError) database is locked" |}.
Proof.
  split; [| split].
  - refine (proj1 (get_schema_describes_live_metadata Sample.sample_db
                     Sample.sample_info Sample.seeded [])
              ["orders"; "customers"]
              (Sample.select_result ["name"] [[VStr "orders"]; [VStr "customers"]])
              _ _ sample_readable); reflexivity.
  - refine (proj1 (proj2 (proj2 (get_schema_describes_live_metadata Sample.broken_db
                                   Sample.sample_info Sample.seeded [])))
              _ Sample.seeded _).
    reflexivity.
  - refine (proj2 (proj2 (proj2 (get_schema_describes_live_metadata Sample.flaky_db
                                   Sample.sample_info Sample.seeded [])))
              ["orders"] "customers" []
              (Sample.select_result ["name"] [[VStr "orders"]; [VStr "customers"]])
              _ Sample.seeded _ _ _ _).
    + reflexivity.
    + reflexivity.
    + split.
      * intros t [<- | []]. eexists. split; reflexivity.
      * intros t c [<- | []] Hc. simpl in Hc.
        repeat (destruct Hc as [<- | Hc]; [simpl; lia |]). contradiction.
    + reflexivity.
Defined.

(** The descriptor is rebuilt from the store at hand: after a table is
    created, the next call lists it. *)
Example get_schema_sees_new_table :
  fst (get_schema Sample.sample_db Sample.w0)
  = inr {| schema :=
             [ (VStr "orders",
                [ [("name", VStr "order_id"); ("type", VStr "INTEGER")];
                  [("name", VStr "customer_id"); ("type", VStr "INTEGER")];
                  [("name", VStr "order_date"); ("type", VStr "TEXT")];
                  [("name", VStr "total_amount"); ("type", VStr "REAL")] ]);
               (VStr "customers",
                [ [("name", VStr "customer_id"); ("type", VStr "INTEGER")];
                  [("name", VStr "name"); ("type", VStr "TEXT")];
                  [("name", VStr "city"); ("type", VStr "TEXT")];
                  [("name", VStr "registration_date"); ("type", VStr "TEXT")] ]) ] |}
  /\ (let w1 := snd (get_schema Sample.sample_db Sample.w0) in
      let w2 := {| store := Sample.after_ddl; trace := trace w1 |} in
      exists sch,
        fst (get_schema Sample.sample_db w2) = inr {| schema := sch |}
        /\ map fst sch = [VStr "orders"; VStr "customers"; VStr "products"]
        /\ length (trace (snd (get_schema Sample.sample_db w2))) = 14).
Proof.
  split; [reflexivity |].
  eexists. split; [reflexivity |]. split; reflexivity.
Qed.

(* ===================================================================== *)
(** * Further properties of the translator *)
(* ===================================================================== *)

Lemma template_of_inj (i j : nat) :
  i <= 6 -> j <= 6 -> template_of i = template_of j -> i = j.
Proof.
  intros Hi Hj.
  destruct i as [|[|[|[|[|[|[|i]]]]]]]; try lia;
    destruct j as [|[|[|[|[|[|[|j]]]]]]]; try lia;
    intros H; try reflexivity; vm_compute in H; discriminate H.
Qed.

(** X1.  The SQL text tells which rule fired: the seven templates are pairwise
    different, so [generate_sql] returns the template of rule [i] exactly
    when rule [i] is the one selected. *)
Theorem sql_identifies_rule (self : SQLCoderService) (q : string) (i : nat) :
  i <= 6 ->
  (generate_sql self q = template_of i <-> matched_rule q = i).
Proof.
  intros Hi. rewrite generate_sql_is_translate. unfold translate, fst. split.
  - intros H. apply template_of_inj; [apply matched_rule_bound | exact Hi | exact H].
  - intros ->. reflexivity.
Qed.

Lemma sql_identifies_rule_witness :
  generate_sql Sample.service "which PRODUCTS sell best" = template_of 4
  <-> matched_rule "which PRODUCTS sell best" = 4.
Proof.
  apply (sql_identifies_rule Sample.service "which PRODUCTS sell best" 4). lia.
Defined.

(** X2.  No rule is dead: each of the six rules, and the default, is selected
    by some question. *)
Theorem every_rule_is_reachable (self : SQLCoderService) (i : nat) :
  i <= 6 -> exists q, matched_rule q = i /\ generate_sql self q = template_of i.
Proof.
  intros Hi.
  assert (H : exists q, matched_rule q = i).
  { destruct i as [|[|[|[|[|[|[|i]]]]]]]; try lia.
    - exists "customers in Mumbai". reflexivity.
    - exists "total revenue". reflexivity.
    - exists "all customers". reflexivity.
    - exists "orders by status". reflexivity.
    - exists "products". reflexivity.
    - exists "number of orders". reflexivity.
    - exists "hello". reflexivity. }
  destruct H as [q Hq]. exists q. split; [exact Hq |].
  rewrite generate_sql_is_translate. unfold translate, fst. rewrite Hq.
  reflexivity.
Qed.

Lemma every_rule_is_reachable_witness :
  exists q, matched_rule q = 5 /\ generate_sql Sample.service q = template_of 5.
Proof.
  apply (every_rule_is_reachable Sample.service 5). lia.
Defined.

(** *** Substring tests under concatenation *)

Lemma map_str_app (f : ascii -> ascii) (a b : string) :
  map_str f (a ++ b) = map_str f a ++ map_str f b.
Proof.
  induction a as [|c a IH]; simpl; [reflexivity | now rewrite IH].
Qed.

Lemma prefix_nil (s : string) : String.prefix "" s = true.
Proof. destruct s; reflexivity. Qed.

Lemma prefix_app_r (k s b : string) :
  String.prefix k s = true -> String.prefix k (s ++ b) = true.
Proof.
  revert k. induction s as [|c s IH]; intros k H.
  - destruct k; [apply prefix_nil | discriminate H].
  - destruct k as [|a k]; [reflexivity |].
    simpl in *. destruct (ascii_dec a c); [apply IH; exact H | discriminate H].
Qed.

Lemma contains_app_r (k s b : string) :
  k in' s = true -> k in' (s ++ b) = true.
Proof.
  induction s as [|c s IH]; intros H.
  - simpl in H. rewrite orb_false_r in H.
    destruct k; [| discriminate H].
    destruct b; reflexivity.
  - cbn [contains append] in *. apply orb_true_iff in H. apply orb_true_iff.
    destruct H as [H | H].
    + left. apply (prefix_app_r k (String c s) b). exact H.
    + right. apply IH. exact H.
Qed.

Lemma contains_app_l (k a s : string) :
  k in' s = true -> k in' (a ++ s) = true.
Proof.
  intros H. induction a as [|c a IH]; [exact H |].
  cbn [contains append]. rewrite IH. apply orb_true_r.
Qed.

(** A rule predicate only looks at the nine keyword tests. *)
Lemma predicates_monotone (s s' : string) :
  (forall k, In k keywords -> k in' s = true -> k in' s' = true) ->
  forall r, In r rules -> predicate r s = true -> predicate r s' = true.
Proof.
  intros Hk r Hr. unfold keywords in Hk. simpl in Hr.
  repeat (destruct Hr as [<- | Hr]; [
    cbn [predicate]; rewrite ?andb_true_iff, ?orb_true_iff;
    intuition (auto 20 using in_eq, in_cons) |]).
  contradiction.
Qed.

Lemma predicates_agree (s s' : string) :
  (forall k, In k keywords -> k in' s = k in' s') ->
  forall r, In r rules -> predicate r s = predicate r s'.
Proof.
  intros Hk r Hr. unfold keywords in Hk. simpl in Hr.
  repeat (destruct Hr as [<- | Hr]; [
    cbn [predicate]; rewrite !Hk by (simpl; auto 20); reflexivity |]).
  contradiction.
Qed.

Lemma first_match_monotone (rs : list Rule) (k i : nat) (s s' : string) :
  (forall r, In r rs -> predicate r s = true -> predicate r s' = true) ->
  first_match rs k s = Some i ->
  exists j, first_match rs k s' = Some j /\ j <= i.
Proof.
  revert k. induction rs as [|r rs IH]; intros k Hm H; simpl in *.
  - discriminate H.
  - destruct (predicate r s) eqn:Hp.
    + injection H as <-. rewrite (Hm r) by auto. exists k. split; [reflexivity | lia].
    + destruct (predicate r s') eqn:Hp'.
      * exists k. split; [reflexivity |].
        apply first_match_bound in H. lia.
      * apply IH; [| exact H]. intros r' Hr'. apply Hm. right. exact Hr'.
Qed.

Lemma first_match_ext (rs : list Rule) (k : nat) (s s' : string) :
  (forall r, In r rs -> predicate r s = predicate r s') ->
  first_match rs k s = first_match rs k s'.
Proof.
  revert k. induction rs as [|r rs IH]; intros k H; simpl.
  - reflexivity.
  - rewrite (H r) by (left; reflexivity).
    rewrite IH; [reflexivity |]. intros r' Hr'. apply H. right. exact Hr'.
Qed.

(** X3.  Text added before or after a question can only move it to a rule
    declared earlier, never to a later one; in particular a question that
    selects the first rule keeps its SQL whatever is added around it. *)
Theorem surrounding_text_never_lowers_priority (self : SQLCoderService)
    (pre q post : string) :
  matched_rule (pre ++ q ++ post) <= matched_rule q
  /\ (matched_rule q = 0 ->
      generate_sql self (pre ++ q ++ post) = generate_sql self q).
Proof.
  assert (Hle : matched_rule (pre ++ q ++ post) <= matched_rule q).
  { unfold matched_rule at 2.
    destruct (first_match rules 0 (lower q)) as [i|] eqn:E.
    - destruct (first_match_monotone rules 0 i (lower q) (lower (pre ++ q ++ post)))
        as [j [Hj Hji]]; [| exact E |].
      + apply predicates_monotone. intros k _ Hk.
        unfold lower. rewrite !map_str_app.
        apply contains_app_l. apply contains_app_r. exact Hk.
      + unfold matched_rule. rewrite Hj. exact Hji.
    - apply matched_rule_bound. }
  split; [exact Hle |].
  intros H0. rewrite !generate_sql_is_translate. unfold translate, fst.
  rewrite H0. rewrite H0 in Hle. f_equal. lia.
Qed.

Lemma surrounding_text_never_lowers_priority_witness :
  matched_rule ("please list " ++ "customers in Mumbai" ++ " and their products")
  <= matched_rule "customers in Mumbai"
  /\ generate_sql Sample.service
       ("please list " ++ "customers in Mumbai" ++ " and their products")
     = generate_sql Sample.service "customers in Mumbai".
Proof.
  split.
  - apply (proj1 (surrounding_text_never_lowers_priority Sample.service
                    "please list " "customers in Mumbai" " and their products")).
  - apply (proj2 (surrounding_text_never_lowers_priority Sample.service
                    "please list " "customers in Mumbai" " and their products")).
    reflexivity.
Defined.

(** *** Substring tests under trimming *)

Lemma is_space_lower_char (c : ascii) : is_space (lower_char c) = is_space c.
Proof. destruct c as [[] [] [] [] [] [] [] []]; reflexivity. Qed.

Lemma lstrip_map_str (f : ascii -> ascii) (s : string) :
  (forall c, is_space (f c) = is_space c) ->
  lstrip (map_str f s) = map_str f (lstrip s).
Proof.
  intros Hf. induction s as [|c s IH]; simpl; [reflexivity |].
  rewrite Hf. destruct (is_space c); [exact IH | reflexivity].
Qed.

Lemma rstrip_map_str (f : ascii -> ascii) (s : string) :
  (forall c, is_space (f c) = is_space c) ->
  rstrip (map_str f s) = map_str f (rstrip s).
Proof.
  intros Hf. induction s as [|c s IH]; simpl; [reflexivity |].
  rewrite IH, Hf.
  destruct (rstrip s); simpl; [destruct (is_space c) |]; reflexivity.
Qed.

Lemma lower_strip (s : string) : lower (strip s) = strip (lower s).
Proof.
  unfold lower, strip.
  rewrite lstrip_map_str, rstrip_map_str by apply is_space_lower_char.
  reflexivity.
Qed.

Lemma prefix_empty (k : string) : k <> "" -> String.prefix k "" = false.
Proof. destruct k; [congruence | reflexivity]. Qed.

Lemma contains_lstrip (a : ascii) (k s : string) :
  is_space a = false ->
  String a k in' lstrip s = String a k in' s.
Proof.
  intros Ha. induction s as [|c s IH]; [reflexivity |].
  cbn [lstrip]. destruct (is_space c) eqn:Hc; [| reflexivity].
  rewrite IH. cbn [contains String.prefix].
  destruct (ascii_dec a c) as [-> | _]; [congruence | reflexivity].
Qed.

Lemma rstrip_tail (a : ascii) (k : string) :
  k <> "" -> rstrip (String a k) = String a k -> rstrip k = k.
Proof.
  intros Hk. cbn [rstrip].
  destruct (rstrip k) as [|b r] eqn:E.
  - destruct k; [congruence |].
    destruct (is_space a); discriminate.
  - intros [= ->]. reflexivity.
Qed.

Lemma prefix_rstrip (s k : string) :
  k <> "" -> rstrip k = k ->
  String.prefix k (rstrip s) = String.prefix k s.
Proof.
  revert k. induction s as [|c s IH]; intros k Hk Hr; [reflexivity |].
  destruct k as [|a k]; [congruence |].
  destruct k as [|b k].
  - assert (Ha : is_space a = false).
    { cbn in Hr. destruct (is_space a); [discriminate | reflexivity]. }
    cbn [rstrip]. destruct (rstrip s) as [|x r].
    + destruct (is_space c) eqn:Hc; cbn [String.prefix].
      * destruct (ascii_dec a c) as [-> | _]; [congruence | reflexivity].
      * destruct (ascii_dec a c); [now rewrite prefix_nil | reflexivity].
    + cbn [String.prefix]. destruct (ascii_dec a c); [| reflexivity].
      now rewrite prefix_nil.
  - pose proof (rstrip_tail a (String b k) ltac:(discriminate) Hr) as Hr'.
    specialize (IH (String b k) ltac:(discriminate) Hr').
    cbn [rstrip]. destruct (rstrip s) as [|x r] eqn:E.
    + assert (Hf : String.prefix (String b k) s = false)
        by (rewrite <- IH; reflexivity).
      destruct (is_space c); cbn [String.prefix];
        destruct (ascii_dec a c); try reflexivity; now rewrite Hf.
    + change (String.prefix (String a (String b k)) (String c (String x r)))
        with (if ascii_dec a c then String.prefix (String b k) (String x r) else false).
      change (String.prefix (String a (String b k)) (String c s))
        with (if ascii_dec a c then String.prefix (String b k) s else false).
      rewrite IH. reflexivity.
Qed.

Lemma contains_rstrip (k s : string) :
  k <> "" -> rstrip k = k -> k in' rstrip s = k in' s.
Proof.
  intros Hk Hr. induction s as [|c s IH]; [reflexivity |].
  change (k in' String c s) with (String.prefix k (String c s) || k in' s).
  rewrite <- (prefix_rstrip (String c s) k Hk Hr).
  cbn [rstrip] in *. destruct (rstrip s) as [|x r] eqn:E.
  - rewrite <- IH.
    destruct (is_space c); cbn [contains]; rewrite ?(prefix_empty k Hk);
      reflexivity.
  - cbn [contains]. rewrite <- IH. reflexivity.
Qed.

Lemma contains_strip (a : ascii) (k s : string) :
  is_space a = false -> rstrip (String a k) = String a k ->
  String a k in' strip s = String a k in' s.
Proof.
  intros Ha Hr. unfold strip.
  rewrite contains_rstrip by (discriminate || exact Hr).
  apply contains_lstrip. exact Ha.
Qed.

Lemma keywords_strip (s : string) (k : string) :
  In k keywords -> k in' strip s = k in' s.
Proof.
  intros Hk. unfold keywords in Hk. simpl in Hk.
  repeat (destruct Hk as [<- | Hk]; [apply contains_strip; reflexivity |]).
  contradiction.
Qed.

(** X4.  White space before and after the question is irrelevant: trimming
    the question changes neither the rule selected nor the SQL. *)
Theorem surrounding_whitespace_is_ignored (self : SQLCoderService) (q : string) :
  matched_rule (strip q) = matched_rule q
  /\ generate_sql self (strip q) = generate_sql self q.
Proof.
  assert (Hm : matched_rule (strip q) = matched_rule q).
  { unfold matched_rule. rewrite lower_strip.
    rewrite (first_match_ext rules 0 (strip (lower q)) (lower q)); [reflexivity |].
    apply predicates_agree. intros k Hk. apply keywords_strip. exact Hk. }
  split; [exact Hm |].
  rewrite !generate_sql_is_translate. unfold translate, fst. rewrite Hm.
  reflexivity.
Qed.

(* ===================================================================== *)
(** * Further properties of the endpoints *)
(* ===================================================================== *)

Section Requests.

Context {Store : Type}.
Variable db : Session Store.
Variable self : SQLCoderService.

(** X5.  Whatever the session answers, one request sends exactly one statement
    to it, the one reported in [sql_query] and before anything else; what
    follows only reads the result, so the store is left as that one
    [execute] call left it; and the response has either results or an
    error, never both and never neither. *)
Theorem endpoint_runs_one_statement (req : QueryRequest) (w : World Store) :
  exists evs,
    trace (snd (execute_query_endpoint db self req w))
    = (trace w
       ++ EvExecute (sql_query (fst (execute_query_endpoint db self req w))) :: evs)%list
    /\ (forall ev, In ev evs -> ev = EvFetchall \/ ev = EvKeys)
    /\ store (snd (execute_query_endpoint db self req w))
       = snd (execute db (generate_sql self (question req)) (store w))
    /\ ((exists rs, results (fst (execute_query_endpoint db self req w)) = Some rs
                    /\ error (fst (execute_query_endpoint db self req w)) = None)
        \/ (exists e, results (fst (execute_query_endpoint db self req w)) = None
                      /\ error (fst (execute_query_endpoint db self req w)) = Some e)).
Proof.
  unfold execute_query_endpoint.
  rewrite execute_statement_sql.
  pose proof (generate_sql_is_select self (question req)) as Hsel.
  set (sql := generate_sql self (question req)) in *.
  unfold execute_statement. rewrite (run_statement_read db sql w Hsel).
  destruct (execute db sql (store w)) as [[e | res] s].
  - exists []. simpl. repeat split; [contradiction | right; eauto].
  - destruct (res_fetchall res) as [e | rows].
    + exists [EvFetchall]. simpl. repeat split; [| right; eauto].
      intros ev [<- | []]. left. reflexivity.
    + assert (Hevs : forall ev, In ev [EvFetchall; EvKeys] ->
                                ev = EvFetchall \/ ev = EvKeys).
      { intros ev [<- | [<- | []]]; [left | right]; reflexivity. }
      destruct (res_keys res) as [e | cols].
      * exists [EvFetchall; EvKeys]. simpl. repeat split; [exact Hevs | right; eauto].
      * exists [EvFetchall; EvKeys].
        destruct (list_comp (row_to_dict cols) rows) as [e | rs]; simpl;
          repeat split; try exact Hevs; [right | left]; eauto.
Qed.

(** X6.  The generate-only endpoint and the generate-and-execute endpoint
    report the same statement for the same question, whatever the session
    does; the former never reports an error and its statement is never
    empty. *)
Theorem endpoints_agree_on_sql (req : QueryRequest) (w : World Store) :
  sql_query (generate_sql_endpoint self req)
  = sql_query (fst (execute_query_endpoint db self req w))
  /\ error (generate_sql_endpoint self req) = None
  /\ sql_query (generate_sql_endpoint self req) <> ""
  /\ In (sql_query (fst (execute_query_endpoint db self req w))) templates.
Proof.
  unfold execute_query_endpoint. rewrite execute_statement_sql.
  unfold generate_sql_endpoint. cbn [sql_query error].
  split; [reflexivity |]. split; [reflexivity |].
  split; [| apply generate_sql_in_templates].
  apply (templates_ind (fun s => s <> "")).
  repeat constructor; discriminate.
Qed.

End Requests.

(* ===================================================================== *)
(** * Further properties of the row mappings *)
(* ===================================================================== *)

Section DictLookup.

Context {K V : Type}.
Variable eqb : K -> K -> bool.
Hypothesis eqb_iff : forall a b, eqb a b = true <-> a = b.

Lemma eqb_refl (a : K) : eqb a a = true.
Proof. apply eqb_iff. reflexivity. Qed.

Lemma eqb_neq (a b : K) : a <> b -> eqb a b = false.
Proof.
  intros H. destruct (eqb a b) eqn:E; [| reflexivity].
  apply eqb_iff in E. contradiction.
Qed.

Lemma dict_set_keys (k : K) (v : V) (d : dict K V) (x : K) :
  In x (map fst (dict_set eqb k v d)) <-> x = k \/ In x (map fst d).
Proof.
  induction d as [|[k' v'] d IH]; simpl.
  - intuition.
  - destruct (eqb k k') eqn:E; simpl.
    + apply eqb_iff in E. subst k'. intuition.
    + rewrite IH. intuition.
Qed.

Lemma dict_set_nodup (k : K) (v : V) (d : dict K V) :
  NoDup (map fst d) -> NoDup (map fst (dict_set eqb k v d)).
Proof.
  induction d as [|[k' v'] d IH]; simpl; intros Hnd.
  - constructor; [intros [] | constructor].
  - inversion Hnd as [|? ? Hk' Hd]; subst.
    destruct (eqb k k') eqn:E; simpl.
    + constructor; assumption.
    + constructor; [| apply IH; exact Hd].
      rewrite dict_set_keys. intros [-> | H]; [| contradiction].
      rewrite eqb_refl in E. discriminate E.
Qed.

Lemma dict_get_set_same (k : K) (v : V) (d : dict K V) :
  dict_get eqb k (dict_set eqb k v d) = Some v.
Proof.
  induction d as [|[k' v'] d IH]; simpl.
  - rewrite eqb_refl. reflexivity.
  - destruct (eqb k k') eqn:E; simpl; rewrite E; [reflexivity | exact IH].
Qed.

Lemma dict_get_set_other (k k' : K) (v : V) (d : dict K V) :
  k' <> k -> dict_get eqb k' (dict_set eqb k v d) = dict_get eqb k' d.
Proof.
  intros Hne. induction d as [|[k0 v0] d IH]; simpl.
  - rewrite (eqb_neq k' k Hne). reflexivity.
  - destruct (eqb k k0) eqn:E; simpl.
    + apply eqb_iff in E. subst k0. rewrite (eqb_neq k' k Hne). reflexivity.
    + destruct (eqb k' k0); [reflexivity | exact IH].
Qed.

Lemma fold_set_keys (items d : dict K V) (x : K) :
  In x (map fst (fold_left (fun d kv => dict_set eqb (fst kv) (snd kv) d) items d))
  <-> In x (map fst items) \/ In x (map fst d).
Proof.
  revert d. induction items as [|[k v] items IH]; intros d; simpl.
  - intuition.
  - rewrite IH, dict_set_keys. intuition.
Qed.

Lemma fold_set_nodup (items d : dict K V) :
  NoDup (map fst d) ->
  NoDup (map fst (fold_left (fun d kv => dict_set eqb (fst kv) (snd kv) d) items d)).
Proof.
  revert d. induction items as [|[k v] items IH]; intros d Hnd; simpl.
  - exact Hnd.
  - apply IH. apply dict_set_nodup. exact Hnd.
Qed.

Lemma fold_set_get_absent (items d : dict K V) (k : K) :
  ~ In k (map fst items) ->
  dict_get eqb k (fold_left (fun d kv => dict_set eqb (fst kv) (snd kv) d) items d)
  = dict_get eqb k d.
Proof.
  revert d. induction items as [|[k' v'] items IH]; intros d Hk; simpl in *.
  - reflexivity.
  - rewrite IH by tauto. apply dict_get_set_other. intros ->. tauto.
Qed.

Lemma fold_set_get_last (pre post d : dict K V) (k : K) (v : V) :
  ~ In k (map fst post) ->
  dict_get eqb k
    (fold_left (fun d kv => dict_set eqb (fst kv) (snd kv) d)
       (pre ++ (k, v) :: post)%list d)
  = Some v.
Proof.
  intros Hk. rewrite fold_left_app. simpl.
  rewrite fold_set_get_absent by exact Hk.
  apply dict_get_set_same.
Qed.

End DictLookup.

Lemma combine_at (pre : list string) (k : string) (post : list string) (row : Row) :
  length (pre ++ k :: post)%list <= length row ->
  exists v items1 items2,
    combine (pre ++ k :: post)%list row = (items1 ++ (k, v) :: items2)%list
    /\ nth_error row (length pre) = Some v
    /\ map fst items2 = post.
Proof.
  revert row. induction pre as [|p pre IH]; intros row Hlen.
  - destruct row as [|v row]; simpl in Hlen; [lia |].
    exists v, [], (combine post row). simpl. repeat split.
    clear - Hlen. revert row Hlen. induction post as [|c post IH]; intros row H.
    + reflexivity.
    + destruct row as [|x row]; simpl in *; [lia |].
      f_equal. apply IH. lia.
  - destruct row as [|x row]; simpl in Hlen; [lia |].
    destruct (IH row) as [v [i1 [i2 [Hc [Hn Hp]]]]]; [lia |].
    exists v, ((p, x) :: i1), i2. simpl. rewrite Hc. repeat split; assumption.
Qed.

Lemma map_fst_combine (cols : list string) (row : Row) :
  length cols <= length row -> map fst (combine cols row) = cols.
Proof.
  revert row. induction cols as [|c cols IH]; intros row H; [reflexivity |].
  destruct row as [|x row]; simpl in *; [lia |].
  f_equal. apply IH. lia.
Qed.

(** X7.  The mapping built for one row has pairwise distinct keys, its keys
    are exactly the column names, and when a column name occurs several
    times the value kept under it is that of its last occurrence. *)
Theorem row_mapping_keeps_last_duplicate (cols : list string) (row : Row) :
  length cols <= length row ->
  exists d,
    row_to_dict cols row = inr d
    /\ NoDup (map fst d)
    /\ (forall x, In x (map fst d) <-> In x cols)
    /\ (forall pre k post,
           cols = (pre ++ k :: post)%list -> ~ In k post ->
           dict_get String.eqb k d = nth_error row (length pre)).
Proof.
  intros Hlen. exists (dict_of_items String.eqb (combine cols row)).
  split; [apply row_to_dict_items; exact Hlen |].
  unfold dict_of_items. split; [| split].
  - apply (fold_set_nodup String.eqb String.eqb_eq). constructor.
  - intros x. rewrite (fold_set_keys String.eqb String.eqb_eq).
    rewrite map_fst_combine by exact Hlen. simpl. tauto.
  - intros pre k post -> Hk.
    destruct (combine_at pre k post row Hlen) as [v [i1 [i2 [Hc [Hn Hp]]]]].
    rewrite Hc, Hn.
    apply (fold_set_get_last String.eqb String.eqb_eq). rewrite Hp. exact Hk.
Qed.

Lemma row_mapping_keeps_last_duplicate_witness :
  exists d,
    row_to_dict ["id"; "name"; "id"] [VInt 1; VStr "a"; VInt 2] = inr d
    /\ NoDup (map fst d)
    /\ (forall x, In x (map fst d) <-> In x ["id"; "name"; "id"])
    /\ (forall pre k post,
           ["id"; "name"; "id"] = (pre ++ k :: post)%list -> ~ In k post ->
           dict_get String.eqb k d
           = nth_error [VInt 1; VStr "a"; VInt 2] (length pre)).
Proof.
  apply (row_mapping_keeps_last_duplicate ["id"; "name"; "id"]
           [VInt 1; VStr "a"; VInt 2]).
  simpl. lia.
Defined.

(* ===================================================================== *)
(** * Further properties of the schema introspector *)
(* ===================================================================== *)

Section IntrospectorCalls.

Context {Store : Type}.
Variable db : Session Store.

(** The calls of the loop, for any listing and any session behaviour. *)
Lemma schema_loop_calls (tables : list Row)
    (acc : dict value (list (dict string value))) (w : World Store) :
  exists evs,
    trace (snd (schema_loop db tables acc w)) = (trace w ++ evs)%list
    /\ Forall (fun ev => ev = EvFetchall \/ exists s, ev = EvExecute s) evs
    /\ length (filter (fun ev => match ev with EvExecute _ => true | _ => false end) evs)
       <= length tables.
Proof.
  revert acc w. induction tables as [|t tables IH]; intros acc w.
  - exists []. simpl. rewrite app_nil_r. repeat split; [constructor | lia].
  - destruct t as [|x [|y t']].
    + exists []. simpl. rewrite app_nil_r. repeat split; [constructor | lia].
    + cbn [schema_loop]. unfold bind at 1. unfold db_execute.
      set (q := "PRAGMA table_info(" ++ py_str x ++ ");").
      assert (Hq : EvExecute q = EvFetchall \/ exists s, EvExecute q = EvExecute s)
        by (right; exists q; reflexivity).
      destruct (execute db q (store w)) as [[e | res] s].
      * exists [EvExecute q]. simpl. repeat split; [| lia].
        constructor; [exact Hq | constructor].
      * unfold bind at 1. unfold fetchall, log. cbn [store trace].
        destruct (res_fetchall res) as [e | cols].
        -- exists [EvExecute q; EvFetchall]. simpl. rewrite <- app_assoc.
           repeat split; [| lia].
           constructor; [exact Hq |]. constructor; [left; reflexivity | constructor].
        -- unfold bind at 1. unfold lift.
           destruct (list_comp column_descriptor cols) as [e | descr].
           ++ exists [EvExecute q; EvFetchall]. simpl. rewrite <- app_assoc.
              repeat split; [| lia].
              constructor; [exact Hq |].
              constructor; [left; reflexivity | constructor].
           ++ match goal with
              | |- context [schema_loop db tables ?a ?w'] =>
                  destruct (IH a w') as [evs [Ht [Hall Hn]]]
              end.
              exists (EvExecute q :: EvFetchall :: evs). rewrite Ht. cbn [trace].
              rewrite <- !app_assoc. repeat split.
              ** constructor; [exact Hq |].
                 constructor; [left; reflexivity | exact Hall].
              ** simpl. lia.
    + exists []. simpl. rewrite app_nil_r. repeat split; [constructor | lia].
Qed.

(** X8.  Introspection only reads: whatever the session answers, a call first
    sends the table listing, then nothing but further statements (one per
    listed table at most) and [fetchall]s; it never commits and never asks
    for column keys; and when it fails the status is always 500. *)
Theorem get_schema_only_reads (w : World Store) :
  exists evs,
    trace (snd (get_schema db w))
    = (trace w ++ EvExecute list_tables_sql :: evs)%list
    /\ ~ In EvCommit evs
    /\ ~ In EvKeys evs
    /\ (forall tables r s,
           execute db list_tables_sql (store w) = (inr r, s) ->
           res_fetchall r = inr tables ->
           length (filter (fun ev => match ev with EvExecute _ => true | _ => false end) evs)
           <= length tables)
    /\ (forall ex, fst (get_schema db w) = inl ex -> status_code ex = 500%Z).
Proof.
  assert (Hno : forall evs,
             Forall (fun ev => ev = EvFetchall \/ exists s, ev = EvExecute s) evs ->
             ~ In EvCommit evs /\ ~ In EvKeys evs).
  { intros evs H. rewrite Forall_forall in H.
    split; intros Hin; destruct (H _ Hin) as [E | [s E]]; discriminate E. }
  assert (H500 : forall ex, fst (get_schema db w) = inl ex -> status_code ex = 500%Z).
  { intros ex. unfold get_schema.
    destruct (get_schema_body db w) as [[e | r] w']; simpl.
    - intros [= <-]. reflexivity.
    - discriminate. }
  cut (exists evs,
          trace (snd (get_schema db w))
          = (trace w ++ EvExecute list_tables_sql :: evs)%list
          /\ Forall (fun ev => ev = EvFetchall \/ exists s, ev = EvExecute s) evs
          /\ (forall tables r s,
                 execute db list_tables_sql (store w) = (inr r, s) ->
                 res_fetchall r = inr tables ->
                 length (filter (fun ev => match ev with
                                           | EvExecute _ => true
                                           | _ => false
                                           end) evs)
                 <= length tables)).
  { intros [evs [Ht [Hall Hn]]]. exists evs.
    destruct (Hno evs Hall) as [Hc Hk]. repeat split; assumption. }
  clear Hno H500.
  unfold get_schema, get_schema_body.
  unfold bind at 1. unfold db_execute.
  destruct (execute db list_tables_sql (store w)) as [[e | res] s] eqn:Hex.
  - exists []. simpl. split; [reflexivity |]. split; [constructor |].
    intros tables r s' H. discriminate H.
  - unfold bind at 1. unfold fetchall, log. cbn [store trace].
    destruct (res_fetchall res) as [e | tables] eqn:Hf.
    + exists [EvFetchall]. simpl. rewrite <- app_assoc.
      split; [reflexivity |]. split.
      * constructor; [left; reflexivity | constructor].
      * intros tables r s' [= <- <-] H. rewrite Hf in H. discriminate H.
    + unfold bind at 1.
      match goal with
      | |- context [schema_loop db tables ?a ?w'] =>
          destruct (schema_loop_calls tables a w') as [evs [Ht [Hall Hn]]];
          destruct (schema_loop db tables a w') as [[e | sch] w'']
      end; cbn [snd trace] in *;
        exists (EvFetchall :: evs); unfold ret; cbn [snd trace];
        rewrite Ht; rewrite <- !app_assoc;
        (split; [reflexivity |]); (split; [constructor; [left; reflexivity | exact Hall] |]);
        intros tables' r' s' [= <- <-] H; rewrite Hf in H;
        injection H as <-; exact Hn.
Qed.

End IntrospectorCalls.

(* ===================================================================== *)
(** * The generated statements against the seeded tables *)
(* ===================================================================== *)

(** X9.  Three of the six keyword rules produce statements that name a column
    the seeding script does not create: the Mumbai-customers and the
    order-count statements select [c.first_name] from [customers], and the
    order-status statement selects [status] from [orders]; neither
    [customers] nor any other created table has a column [first_name],
    and [orders] has no column [status]. *)
Theorem statements_name_columns_not_created (self : SQLCoderService) (q : string) :
  (matched_rule q = 0 \/ matched_rule q = 5 ->
   "SELECT c." in' generate_sql self q = true
   /\ "c.first_name" in' generate_sql self q = true
   /\ "FROM customers c " in' generate_sql self q = true
   /\ forall t, ~ In "first_name" (InitDb.columns_of t))
  /\ (matched_rule q = 3 ->
      "total_amount, status FROM orders;" in' generate_sql self q = true
      /\ ~ In "status" (InitDb.columns_of "orders")).
Proof.
  rewrite generate_sql_is_translate. unfold translate, fst. split.
  - intros H.
    assert (Hcols : forall t, ~ In "first_name" (InitDb.columns_of t)).
    { intros t. unfold InitDb.columns_of, InitDb.created_tables. cbn [find fst].
      repeat (destruct (String.eqb _ t);
              [cbn; intros Hin; repeat (destruct Hin as [E | Hin]; [discriminate E |]);
               contradiction |]).
      intros []. }
    destruct H as [-> | ->]; repeat split; try reflexivity; exact Hcols.
  - intros ->. split; [reflexivity |].
    cbn. intros Hin. repeat (destruct Hin as [E | Hin]; [discriminate E |]).
    contradiction.
Qed.

Lemma statements_name_columns_not_created_witness :
  ("c.first_name" in' generate_sql Sample.service "List customers from Mumbai" = true
   /\ ~ In "first_name" (InitDb.columns_of "customers"))
  /\ ("total_amount, status FROM orders;"
        in' generate_sql Sample.service "orders by status" = true
      /\ ~ In "status" (InitDb.columns_of "orders")).
Proof.
  split.
  - destruct (proj1 (statements_name_columns_not_created Sample.service
                       "List customers from Mumbai"))
      as [_ [H1 [_ H2]]]; [left; reflexivity |].
    split; [exact H1 | apply H2].
  - apply (proj2 (statements_name_columns_not_created Sample.service
                    "orders by status")).
    reflexivity.
Defined.

Lemma get_schema_only_reads_witness :
  exists evs,
    trace (snd (get_schema Sample.sample_db Sample.w0))
    = (trace Sample.w0 ++ EvExecute list_tables_sql :: evs)%list
    /\ ~ In EvCommit evs
    /\ ~ In EvKeys evs
    /\ (forall tables r s,
           execute Sample.sample_db list_tables_sql (store Sample.w0) = (inr r, s) ->
           res_fetchall r = inr tables ->
           length (filter (fun ev => match ev with EvExecute _ => true | _ => false end) evs)
           <= length tables)
    /\ (forall ex, fst (get_schema Sample.sample_db Sample.w0) = inl ex ->
                   status_code ex = 500%Z).
Proof.
  apply (get_schema_only_reads Sample.sample_db Sample.w0).
Defined.

(* ===================================================================== *)
(** * The executor's classification test *)
(* ===================================================================== *)

Import Classify.

















(** ** C2: classification of the statement *)


Section Classification.

Context {Store : Type}.
Variable db : Session Store.


End Classification.

